(** * xsync::XScope: lock elision with a fallback lock

    A shallow embedding of [ext/xsync/include/scope.hpp] and the
    properties of its entry protocol ([enter]), exit protocol ([exit]) and
    commit callbacks ([registerCommitCallback]).

    The scope is a sequential piece of code that talks to two external
    parties: the processor's transactional-memory unit and the fallback
    lock.  Both are kept in a [world] that the code threads through; every
    primitive the code calls is logged in the world's [trace]. *)

From Stdlib Require Import ZArith List Bool Lia.
From Equations Require Import Equations.
Import ListNotations.
Local Open Scope Z_scope.

Set Implicit Arguments.

(** ** The transactional-memory primitives *)

Module RTM.

(** The header that declares [_xbegin], [_xend], [_xabort] and the status
    macros is not part of the sources.  Its interface is the one the
    description names (begin, commit, explicit abort with a caller-chosen
    code, retry hint), with the values of the RTM intrinsics: a status is
    an [unsigned int]. *)

(** Modelled from the spec: the status of [_xbegin] for a transaction
    that started (the header's [~0u]). *)
Definition _XBEGIN_STARTED : Z := 0xFFFFFFFF.

(** Modelled from the spec: the flag of an explicit abort (header
    missing). *)
Definition _XABORT_EXPLICIT : Z := Z.shiftl 1 0.

(** Modelled from the spec: the retry hint, "a retry is likely to
    succeed" (header missing). *)
Definition _XABORT_RETRY : Z := Z.shiftl 1 1.

(** Modelled from the spec: the flag of a capacity abort, one of the
    aborts that carry no retry hint (header missing). *)
Definition _XABORT_CAPACITY : Z := Z.shiftl 1 3.

(** Modelled from the spec: the caller-chosen code of an explicit abort,
    the top byte of the status (header missing). *)
Definition _XABORT_CODE (x : Z) : Z := Z.land (Z.shiftr x 24) 0xFF.

(** Modelled from the spec: the status with which [_xbegin] returns a
    second time after [_xabort(code)] ended the transaction it had
    started: an explicit abort that carries [code] (header missing). *)
Definition xabort_status (code : Z) : Z :=
  Z.lor _XABORT_EXPLICIT (Z.shiftl code 24).

End RTM.
Import RTM.

(** The abort code [enter] reserves for "the fallback lock is held". *)
Definition CONTENTION_CODE : Z := 0xFF.

(** ** The world *)

(** Who holds the fallback lock, seen from the thread that runs the scope. *)
Inductive holder : Type := Free | Self | Other.

Inductive event : Type :=
| EvXBegin (status : Z)   (* a call of _xbegin(), with the status it returned *)
| EvXAbort (code : Z)     (* _xabort(code) inside the transaction *)
| EvXEnd                  (* _xend() *)
| EvQuery (held : bool)   (* isFallbackLocked(), with its answer *)
| EvLock                  (* lockFallback() returned: the lock is owned *)
| EvUnlock                (* unlockFallback() *)
| EvCallback (id : nat).  (* a commit callback that logs its identity *)

Record world : Type := mkWorld {
  hw : nat -> Z;          (* status the k-th call of _xbegin() returns; for
                             a transaction the processor or the body aborts
                             after its start, the abort status *)
  nbegin : nat;           (* calls of _xbegin() made so far *)
  rtm_active : bool;      (* the thread is inside a hardware transaction *)
  fallback_ : holder;     (* the lock the scope's fallback_ refers to *)
  trace : list event      (* primitives called so far, oldest first *)
}.

Definition log (e : event) (w : world) : world :=
  mkWorld (hw w) (nbegin w) (rtm_active w) (fallback_ w) (trace w ++ [e]).

(** Modelled from the spec: [_xbegin()], whose code is not in the
    sources, begins a hardware transaction.  The processor decides; the
    thread is in a transaction exactly when the status is
    [_XBEGIN_STARTED]. *)
Definition _xbegin (w : world) : Z * world :=
  let status := hw w (nbegin w) in
  (status,
   mkWorld (hw w) (S (nbegin w)) (status =? _XBEGIN_STARTED) (fallback_ w)
           (trace w ++ [EvXBegin status])).

(** Modelled from the spec: [_xabort(code)], whose code is not in the
    sources, aborts the running transaction explicitly: the transaction
    is gone and control is back at [_xbegin], which returns the abort
    status.  [enter] calls it only in the branch where [_xbegin] has just
    returned [_XBEGIN_STARTED]. *)
Definition _xabort (code : Z) (w : world) : Z * world :=
  (xabort_status code,
   mkWorld (hw w) (nbegin w) false (fallback_ w) (trace w ++ [EvXAbort code])).

(** Modelled from the spec: [_xend()], whose code is not in the sources,
    commits the transaction: the call is logged and the thread is in no
    transaction afterwards.  What the processor does with an [_xend]
    outside a transaction is not part of the model. *)
Definition _xend (w : world) : world :=
  mkWorld (hw w) (nbegin w) false (fallback_ w) (trace w ++ [EvXEnd]).

(** ** The lock type *)

(** [isFallbackLocked] is the member that is specialized per lock type.
    It only looks at the lock. *)
Class LockType : Type := { is_held : holder -> bool }.

(** The primary template: [return false]. *)
Definition generic : LockType := {| is_held := fun _ => false |}.

(** A lock type whose specialization reads the lock word, as the ones the
    source sketches in comments. *)
Definition probing : LockType :=
  {| is_held := fun h => match h with Free => false | _ => true end |}.

(** [lockFallback] calls the lock's own [lock()], which is not in the
    sources: it blocks until exclusive ownership is obtained, and the call
    returns with the lock taken.  The [pthread_mutex_t] specialization
    calls [pthread_mutex_lock], to the same effect. *)
Definition lockFallback (w : world) : world :=
  mkWorld (hw w) (nbegin w) (rtm_active w) Self (trace w ++ [EvLock]).

(** [unlockFallback] calls the lock's [unlock()] (or
    [pthread_mutex_unlock]): the lock is free again. *)
Definition unlockFallback (w : world) : world :=
  mkWorld (hw w) (nbegin w) (rtm_active w) Free (trace w ++ [EvUnlock]).

(** The largest [int]. *)
Definition INT_MAX : Z := 2147483647.

Section Scope.

Context {LT : LockType}.

Definition isFallbackLocked (w : world) : bool * world :=
  let held := is_held (fallback_ w) in (held, log (EvQuery held) w).

(** ** enter *)

(** How one turn of the [for] loop ends. *)
Inductive ctl : Type := Continue | Break | Return.

(** [(xact_status & _XABORT_EXPLICIT) && _XABORT_CODE(xact_status) == 0xFF] *)
Definition is_contention (xact_status : Z) : bool :=
  negb (Z.land xact_status _XABORT_EXPLICIT =? 0)
  && (_XABORT_CODE xact_status =? CONTENTION_CODE).

(** [xact_status & _XABORT_RETRY] *)
Definition retry_hint (xact_status : Z) : bool :=
  negb (Z.land xact_status _XABORT_RETRY =? 0).

(** The branch "We have aborted". *)
Definition aborted (xact_status : Z) (w : world) : ctl * world :=
  if is_contention xact_status then
    (Continue, unlockFallback (lockFallback w))
  else if negb (retry_hint xact_status) then
    (Break, w)
  else
    (Continue, w).

(** The body of the loop.  After [_xabort(0xFF)] the status that
    [_xbegin] hands back is not [_XBEGIN_STARTED] (see
    [xabort_status_not_started]), so control is in the abort branch. *)
Definition attempt_body (w : world) : ctl * world :=
  let (xact_status, w1) := _xbegin w in
  if xact_status =? _XBEGIN_STARTED then
    let (locked, w2) := isFallbackLocked w1 in
    if negb locked then
      (Return, w2)
    else
      let (xact_status', w3) := _xabort CONTENTION_CODE w2 in
      aborted xact_status' w3
  else
    aborted xact_status w1.

(** [for (int attempt = 0; attempt <= nretries; ++attempt)], from a given
    value of [attempt].  The boolean tells whether the function returned
    from inside the loop.

    The counter is an [int] in the source and an integer here.  It never
    exceeds [nretries + 1], so for every bound below [INT_MAX] the
    increment stays within [int] and the loop of the source is this one.
    For [nretries = INT_MAX] the guard of the source is never false and
    its [++attempt] overflows: there the source leaves the loop by
    [return] or [break] only, and what this definition says about running
    out of attempts is not about the source.  Every statement below about
    the end of the attempts assumes [nretries < INT_MAX]. *)
Equations enter_loop (nretries attempt : Z) (w : world) : bool * world
  by wf (Z.to_nat (nretries + 1 - attempt)) lt :=
  enter_loop nretries attempt w with Z_le_gt_dec attempt nretries := {
    | right _ => (false, w);
    | left _ with attempt_body w := {
        | (Return, w') => (true, w');
        | (Break, w') => (false, w');
        | (Continue, w') => enter_loop nretries (attempt + 1) w' } }.
Next Obligation. lia. Qed.

(** What [enter] does from the head of the loop on. *)
Definition enter_from (nretries attempt : Z) (w : world) : world :=
  match enter_loop nretries attempt w with
  | (true, w') => w'
  | (false, w') => lockFallback w'        (* Take fallback *)
  end.

Definition enter (nretries : Z) (w : world) : world :=
  enter_from nretries 0 w.

(** ** The scope object, exit and the callbacks *)

(** A [std::function<void()>] acts on the world. *)
Definition callback : Type := world -> world.

Record XScope : Type := mkXScope { cbs_ : list callback }.

(** [XScope(LockType& fallback) : fallback_(fallback) { enter(); }] *)
Definition XScope_ctor (w : world) : XScope * world :=
  (mkXScope [], enter 3 w).

Definition registerCommitCallback (cb : callback) (s : XScope) : XScope :=
  mkXScope (cbs_ s ++ [cb]).

(** The first statement of [exit]: end the critical section. *)
Definition terminate (w : world) : world :=
  let (locked, w1) := isFallbackLocked w in
  if locked then unlockFallback w1 else _xend w1.

Definition run_callbacks (cbs : list callback) (w : world) : world :=
  fold_left (fun w cb => cb w) cbs w.

Definition exit (s : XScope) (w : world) : world :=
  run_callbacks (cbs_ s) (terminate w).

End Scope.

(** ** Reading a trace *)

Definition count (p : event -> bool) (t : list event) : nat :=
  length (filter p t).

Definition is_begin (e : event) : bool :=
  match e with EvXBegin _ => true | _ => false end.

Definition is_query (e : event) : bool :=
  match e with EvQuery _ => true | _ => false end.

Definition is_lock (e : event) : bool :=
  match e with EvLock => true | _ => false end.

Definition is_unlock (e : event) : bool :=
  match e with EvUnlock => true | _ => false end.

(** The event shows an abort with the reserved code: [_xbegin] returned
    an abort status that [is_contention] accepts, or [enter] itself
    aborted the transaction with that code. *)
Definition is_contention_abort (e : event) : bool :=
  match e with
  | EvXBegin status => negb (status =? _XBEGIN_STARTED) && is_contention status
  | EvXAbort code => is_contention (xabort_status code)
  | _ => false
  end.

(** The two modes in which a scope runs its critical section, read off
    the world [enter] returned. *)
Inductive mode : Type := Transactional | Locked.

Definition entry_mode (w : world) : mode :=
  if rtm_active w then Transactional else Locked.

(** The mode [exit] acts on: it asks the lock. *)
Definition exit_mode {LT : LockType} (w : world) : mode :=
  if is_held (fallback_ w) then Locked else Transactional.

(** A callback that appends its identity to the shared log. *)
Definition log_cb (id : nat) : callback := log (EvCallback id).

(** The abort status a turn of the loop gets to see in its abort branch,
    if any: the one [_xbegin] returned, or the one of the [_xabort] that
    [enter] issued because the lock was held. *)
Definition abort_observed {LT : LockType} (w : world) : option Z :=
  let status := hw w (nbegin w) in
  if status =? _XBEGIN_STARTED then
    if is_held (fallback_ w) then Some (xabort_status CONTENTION_CODE) else None
  else Some status.

(** The constructor as the interface description has it, with an optional
    retry count. *)
Definition XScope_ctor_with_override {LT : LockType}
    (override : option Z) (w : world) : XScope * world :=
  (mkXScope [], enter (match override with Some r => r | None => 3 end) w).

(** Worlds to run the code in: a processor that answers every [_xbegin]
    with the same status, and a thread that has not yet done anything. *)
Definition always (status : Z) : nat -> Z := fun _ => status.

Definition fresh (statuses : nat -> Z) (h : holder) : world :=
  mkWorld statuses 0 false h [].

(** What a stretch of [enter] adds to the world: the events [evs], of
    which the calls of [_xbegin] are counted in [nbegin]; every lock taken
    is given back, once per contention abort. *)
Record turn_effect (w w' : world) (evs : list event) : Prop := {
  te_trace : trace w' = trace w ++ evs;
  te_hw : hw w' = hw w;
  te_nbegin : nbegin w' = (nbegin w + count is_begin evs)%nat;
  te_balanced : count is_lock evs = count is_unlock evs;
  te_waits : count is_unlock evs = count is_contention_abort evs;
  te_waits_le : (count is_unlock evs <= count is_begin evs)%nat;
  te_queries_le : (count is_query evs <= count is_begin evs)%nat
}.

(** More ways to read a trace. *)
Definition is_xend (e : event) : bool :=
  match e with EvXEnd => true | _ => false end.

Definition is_callback (e : event) : bool :=
  match e with EvCallback _ => true | _ => false end.

Definition is_xabort (e : event) : bool :=
  match e with EvXAbort _ => true | _ => false end.

Definition is_query_held (e : event) : bool :=
  match e with EvQuery true => true | _ => false end.

(** An [_xabort], if the event is one, carries the reserved code. *)
Definition reserved_abort (e : event) : bool :=
  match e with EvXAbort code => code =? CONTENTION_CODE | _ => true end.

(** What the events of an entry look like: no [_xend], no callback, an
    [_xabort(0xFF)] for each query answered "held" and no other
    [_xabort], at most one query per call of [_xbegin]. *)
Definition entry_events (evs : list event) : Prop :=
  count is_xend evs = 0%nat /\
  count is_callback evs = 0%nat /\
  forallb reserved_abort evs = true /\
  count is_xabort evs = count is_query_held evs /\
  (count is_query evs <= count is_begin evs)%nat.

(** An abort status on which the loop goes on without waiting: not the
    started status, not a contention abort, retry hint set. *)
Definition retryable (status : Z) : bool :=
  negb (status =? _XBEGIN_STARTED) && negb (is_contention status)
  && retry_hint status.

(** The events of [j] calls of [_xbegin] in a row, from the world [w] on. *)
Definition begins_of (w : world) (j : nat) : list event :=
  map (fun k => EvXBegin (hw w k)) (seq (nbegin w) j).

(** The world after [j] turns of the loop that each saw a [retryable]
    status. *)
Definition after_retries (w : world) (j : nat) : world :=
  mkWorld (hw w) (nbegin w + j) false (fallback_ w) (trace w ++ begins_of w j).

(** [~XScope() { exit(); }] *)
Definition XScope_dtor {LT : LockType} (s : XScope) (w : world) : world :=
  exit s w.

(** Two worlds that differ at most in who holds the fallback lock. *)
Definition same_except_lock (w w' : world) : Prop :=
  hw w = hw w' /\ nbegin w = nbegin w' /\
  rtm_active w = rtm_active w' /\ trace w = trace w'.

(** ** Basic facts *)

Ltac conjs := repeat match goal with |- _ /\ _ => split end.

Ltac effect := split; (unfold count; simpl; try reflexivity; try lia).

Lemma count_app p t1 t2 : count p (t1 ++ t2) = (count p t1 + count p t2)%nat.
Proof. unfold count. now rewrite filter_app, length_app. Qed.

Lemma xabort_status_not_started :
  (xabort_status CONTENTION_CODE =? _XBEGIN_STARTED) = false.
Proof. reflexivity. Qed.

Lemma xabort_status_contention :
  is_contention (xabort_status CONTENTION_CODE) = true.
Proof. reflexivity. Qed.

Lemma started_looks_like_contention : is_contention _XBEGIN_STARTED = true.
Proof. reflexivity. Qed.

Section Properties.

Context {LT : LockType}.

Lemma enter_loop_step nretries attempt w :
  enter_loop nretries attempt w =
  if attempt <=? nretries then
    match attempt_body w with
    | (Return, w') => (true, w')
    | (Break, w') => (false, w')
    | (Continue, w') => enter_loop nretries (attempt + 1) w'
    end
  else (false, w).
Proof.
  rewrite enter_loop_equation_1.
  destruct (Z_le_gt_dec attempt nretries) as [Hle | Hgt]; simpl.
  - rewrite (proj2 (Z.leb_le attempt nretries) Hle).
    destruct (attempt_body w) as [[ | | ] w']; reflexivity.
  - rewrite (proj2 (Z.leb_gt attempt nretries)) by lia. reflexivity.
Qed.

(** *** One turn of the loop, case by case *)

Lemma attempt_body_started_free w :
  hw w (nbegin w) = _XBEGIN_STARTED ->
  is_held (fallback_ w) = false ->
  attempt_body w =
  (Return,
   mkWorld (hw w) (S (nbegin w)) true (fallback_ w)
           (trace w ++ [EvXBegin _XBEGIN_STARTED; EvQuery false])).
Proof.
  intros Hs Hq. unfold attempt_body, _xbegin, isFallbackLocked, log. simpl.
  rewrite Hs, Hq. simpl. now rewrite <- app_assoc.
Qed.

Lemma attempt_body_started_held w :
  hw w (nbegin w) = _XBEGIN_STARTED ->
  is_held (fallback_ w) = true ->
  attempt_body w =
  (Continue,
   mkWorld (hw w) (S (nbegin w)) false Free
           (trace w ++ [EvXBegin _XBEGIN_STARTED; EvQuery true;
                        EvXAbort CONTENTION_CODE; EvLock; EvUnlock])).
Proof.
  intros Hs Hq.
  unfold attempt_body, _xbegin, isFallbackLocked, log, _xabort. simpl.
  rewrite Hs, Hq. simpl. unfold aborted. rewrite xabort_status_contention.
  unfold unlockFallback, lockFallback. simpl.
  now rewrite <- !app_assoc.
Qed.

Lemma attempt_body_aborted w :
  (hw w (nbegin w) =? _XBEGIN_STARTED) = false ->
  attempt_body w =
  aborted (hw w (nbegin w))
          (mkWorld (hw w) (S (nbegin w)) false (fallback_ w)
                   (trace w ++ [EvXBegin (hw w (nbegin w))])).
Proof.
  intros Hs. unfold attempt_body, _xbegin. now rewrite Hs.
Qed.

Lemma aborted_contention s w :
  is_contention s = true ->
  aborted s w =
  (Continue,
   mkWorld (hw w) (nbegin w) (rtm_active w) Free
           (trace w ++ [EvLock; EvUnlock])).
Proof.
  intros Hc. unfold aborted. rewrite Hc.
  unfold unlockFallback, lockFallback. simpl. now rewrite <- app_assoc.
Qed.

Lemma aborted_no_retry s w :
  is_contention s = false -> retry_hint s = false -> aborted s w = (Break, w).
Proof. intros Hc Hr. unfold aborted. now rewrite Hc, Hr. Qed.

Lemma aborted_retry s w :
  is_contention s = false -> retry_hint s = true -> aborted s w = (Continue, w).
Proof. intros Hc Hr. unfold aborted. now rewrite Hc, Hr. Qed.

Lemma turn_effect_refl w : turn_effect w w [].
Proof. split; simpl; auto using app_nil_r. Qed.

Lemma turn_effect_trans w1 w2 w3 e1 e2 :
  turn_effect w1 w2 e1 -> turn_effect w2 w3 e2 -> turn_effect w1 w3 (e1 ++ e2).
Proof.
  intros [] []. split; rewrite ?count_app; try congruence; try lia.
  now rewrite app_assoc; congruence.
Qed.

Lemma attempt_body_effect w :
  exists evs,
    turn_effect w (snd (attempt_body w)) evs /\
    count is_begin evs = 1%nat /\
    (fst (attempt_body w) = Return ->
       rtm_active (snd (attempt_body w)) = true /\
       is_held (fallback_ (snd (attempt_body w))) = false /\
       fallback_ (snd (attempt_body w)) = fallback_ w /\
       evs = [EvXBegin _XBEGIN_STARTED; EvQuery false]) /\
    (fst (attempt_body w) <> Return ->
       rtm_active (snd (attempt_body w)) = false).
Proof.
  destruct (hw w (nbegin w) =? _XBEGIN_STARTED) eqn:Hs.
  - apply Z.eqb_eq in Hs.
    destruct (is_held (fallback_ w)) eqn:Hq.
    + rewrite (attempt_body_started_held w Hs Hq).
      exists [EvXBegin _XBEGIN_STARTED; EvQuery true;
              EvXAbort CONTENTION_CODE; EvLock; EvUnlock].
      split; [effect | ].
      split; [reflexivity | split; [discriminate | reflexivity]].
    + rewrite (attempt_body_started_free w Hs Hq).
      exists [EvXBegin _XBEGIN_STARTED; EvQuery false].
      split; [effect | ].
      split; [reflexivity | ]. split; [intros _; simpl; auto | simpl; congruence].
  - rewrite (attempt_body_aborted w Hs).
    destruct (is_contention (hw w (nbegin w))) eqn:Hc.
    + rewrite (aborted_contention _ _ Hc).
      exists [EvXBegin (hw w (nbegin w)); EvLock; EvUnlock].
      split; [effect; rewrite ?Hs, ?Hc; simpl; rewrite <- ?app_assoc; auto | ].
      split; [reflexivity | split; [discriminate | reflexivity]].
    + destruct (retry_hint (hw w (nbegin w))) eqn:Hr.
      * rewrite (aborted_retry _ _ Hc Hr).
        exists [EvXBegin (hw w (nbegin w))].
        split; [effect; rewrite ?Hs, ?Hc; simpl; auto | ].
        split; [reflexivity | split; [discriminate | reflexivity]].
      * rewrite (aborted_no_retry _ _ Hc Hr).
        exists [EvXBegin (hw w (nbegin w))].
        split; [effect; rewrite ?Hs, ?Hc; simpl; auto | ].
        split; [reflexivity | split; [discriminate | reflexivity]].
Qed.

(** *** The whole loop *)

Lemma enter_loop_effect (k : nat) :
  forall nretries attempt w,
    (Z.to_nat (nretries + 1 - attempt) <= k)%nat ->
    exists evs,
      turn_effect w (snd (enter_loop nretries attempt w)) evs /\
      (count is_begin evs <= Z.to_nat (nretries + 1 - attempt))%nat /\
      (fst (enter_loop nretries attempt w) = true ->
         rtm_active (snd (enter_loop nretries attempt w)) = true /\
         is_held (fallback_ (snd (enter_loop nretries attempt w))) = false /\
         exists pre, evs = pre ++ [EvXBegin _XBEGIN_STARTED; EvQuery false]) /\
      (fst (enter_loop nretries attempt w) = false ->
         rtm_active w = false ->
         rtm_active (snd (enter_loop nretries attempt w)) = false).
Proof.
  induction k as [ | k IH]; intros nretries attempt w Hk;
    rewrite enter_loop_step;
    destruct (attempt <=? nretries) eqn:Hle;
    try (exists []; simpl; split; [apply turn_effect_refl | ];
         split; [unfold count; simpl; lia | split; [discriminate | auto]]);
    apply Z.leb_le in Hle; [lia | ].
  destruct (attempt_body_effect w) as (e1 & He1 & Hb1 & Hret & Hnot).
  destruct (attempt_body w) as [[ | | ] w1] eqn:Hbody; simpl in *.
  - (* Continue: the next turn *)
    destruct (IH nretries (attempt + 1) w1 ltac:(lia))
      as (e2 & He2 & Hb2 & Ht & Hf).
    exists (e1 ++ e2). split; [eauto using turn_effect_trans | ].
    rewrite count_app. split; [lia | ]. split.
    + intros Hr. destruct (Ht Hr) as (? & ? & pre & ->).
      split; [ | split]; auto. exists (e1 ++ pre). now rewrite app_assoc.
    + intros Hr _. apply Hf; auto. apply Hnot. discriminate.
  - (* Break *)
    exists e1. split; [ | split; [ | split]]; auto; try lia; try discriminate.
    intros _ _. apply Hnot. discriminate.
  - (* Return *)
    destruct (Hret eq_refl) as (? & ? & ? & ->).
    exists [EvXBegin _XBEGIN_STARTED; EvQuery false].
    split; [ | split; [ | split]]; auto; try discriminate.
    + unfold count; simpl; lia.
    + intros _. split; [ | split]; auto. now exists [].
Qed.

(** [enter] ends in one of two ways, and the world it returns tells
    which: inside the transaction the last attempt started, or with the
    fallback lock just taken. *)
Lemma enter_from_effect nretries attempt w :
  rtm_active w = false ->
  exists evs,
    trace (enter_from nretries attempt w) = trace w ++ evs /\
    hw (enter_from nretries attempt w) = hw w /\
    nbegin (enter_from nretries attempt w) = (nbegin w + count is_begin evs)%nat /\
    (count is_begin evs <= Z.to_nat (nretries + 1 - attempt))%nat /\
    (count is_unlock evs <= count is_begin evs)%nat /\
    (count is_query evs <= count is_begin evs)%nat /\
    count is_unlock evs = count is_contention_abort evs /\
    match entry_mode (enter_from nretries attempt w) with
    | Transactional =>
        count is_lock evs = count is_unlock evs /\
        is_held (fallback_ (enter_from nretries attempt w)) = false /\
        exists pre, evs = pre ++ [EvXBegin _XBEGIN_STARTED; EvQuery false]
    | Locked =>
        count is_lock evs = S (count is_unlock evs) /\
        fallback_ (enter_from nretries attempt w) = Self /\
        exists pre, evs = pre ++ [EvLock]
    end.
Proof.
  intros Hw.
  destruct (enter_loop_effect nretries attempt w (Nat.le_refl _))
    as (evs & He & Hb & Ht & Hf).
  unfold enter_from, entry_mode.
  destruct (enter_loop nretries attempt w) as [[ | ] w'] eqn:Hloop; simpl in *.
  - destruct (Ht eq_refl) as (Hact & Hq & pre & Hpre).
    exists evs. destruct He as [Htr Hhw Hnb Hbal Hwt Hwle Hq']. rewrite Hact.
    conjs; auto. now exists pre.
  - specialize (Hf eq_refl Hw). rewrite Hf.
    destruct He as [Htr Hhw Hnb Hbal Hwt Hwle Hq'].
    exists (evs ++ [EvLock]). rewrite !count_app.
    change (count is_begin [EvLock]) with 0%nat.
    change (count is_unlock [EvLock]) with 0%nat.
    change (count is_query [EvLock]) with 0%nat.
    change (count is_contention_abort [EvLock]) with 0%nat.
    change (count is_lock [EvLock]) with 1%nat.
    conjs; simpl; try lia; try congruence.
    + rewrite Htr. now rewrite app_assoc.
    + now exists evs.
Qed.

Lemma enter_from_continue nretries attempt w w1 :
  attempt <= nretries ->
  attempt_body w = (Continue, w1) ->
  enter_from nretries attempt w = enter_from nretries (attempt + 1) w1.
Proof.
  intros Hle Hb. unfold enter_from at 1. rewrite enter_loop_step.
  rewrite (proj2 (Z.leb_le _ _) Hle), Hb. reflexivity.
Qed.

Lemma enter_from_break nretries attempt w w1 :
  attempt <= nretries ->
  attempt_body w = (Break, w1) ->
  enter_from nretries attempt w = lockFallback w1.
Proof.
  intros Hle Hb. unfold enter_from. rewrite enter_loop_step.
  rewrite (proj2 (Z.leb_le _ _) Hle), Hb. reflexivity.
Qed.

Lemma enter_from_return nretries attempt w w1 :
  attempt <= nretries ->
  attempt_body w = (Return, w1) ->
  enter_from nretries attempt w = w1.
Proof.
  intros Hle Hb. unfold enter_from. rewrite enter_loop_step.
  rewrite (proj2 (Z.leb_le _ _) Hle), Hb. reflexivity.
Qed.

Lemma enter_from_done nretries attempt w :
  nretries < attempt -> enter_from nretries attempt w = lockFallback w.
Proof.
  intros Hlt. unfold enter_from. rewrite enter_loop_step.
  rewrite (proj2 (Z.leb_gt _ _) Hlt). reflexivity.
Qed.

Lemma enter_from_trace nretries attempt w :
  exists evs, trace (enter_from nretries attempt w) = trace w ++ evs.
Proof.
  destruct (enter_loop_effect nretries attempt w (Nat.le_refl _))
    as (evs & [Ht _ _ _ _ _ _] & _).
  unfold enter_from.
  destruct (enter_loop nretries attempt w) as [[ | ] w']; simpl in *.
  - now exists evs.
  - exists (evs ++ [EvLock]). rewrite Ht. now rewrite app_assoc.
Qed.

(** While attempts remain, the next thing [enter] does is call
    [_xbegin]. *)
Lemma enter_from_begins nretries attempt w :
  attempt <= nretries ->
  exists rest,
    trace (enter_from nretries attempt w) =
    trace w ++ EvXBegin (hw w (nbegin w)) :: rest.
Proof.
  intros Hle.
  assert (Hfirst : exists more,
            trace (snd (attempt_body w)) =
            trace w ++ EvXBegin (hw w (nbegin w)) :: more).
  { destruct (hw w (nbegin w) =? _XBEGIN_STARTED) eqn:Hs.
    - apply Z.eqb_eq in Hs. rewrite Hs.
      destruct (is_held (fallback_ w)) eqn:Hq.
      + rewrite (attempt_body_started_held w Hs Hq). simpl. eauto.
      + rewrite (attempt_body_started_free w Hs Hq). simpl. eauto.
    - rewrite (attempt_body_aborted w Hs). unfold aborted.
      destruct (is_contention _); [ | destruct (negb _)]; simpl;
        rewrite <- ?app_assoc; simpl; eauto. }
  destruct Hfirst as (more & Hmore).
  destruct (attempt_body w) as [[ | | ] w1] eqn:Hb; simpl in Hmore.
  - rewrite (enter_from_continue _ Hle Hb).
    destruct (enter_from_trace nretries (attempt + 1) w1) as (evs & ->).
    rewrite Hmore, <- app_assoc. simpl. eauto.
  - rewrite (enter_from_break _ Hle Hb). simpl.
    rewrite Hmore, <- app_assoc. simpl. eauto.
  - rewrite (enter_from_return _ Hle Hb). eauto.
Qed.

End Properties.

(** *** Abort statuses *)

Lemma xabort_status_code (code : Z) :
  0 <= code < 256 -> _XABORT_CODE (xabort_status code) = code.
Proof.
  intros Hc. unfold _XABORT_CODE, xabort_status, _XABORT_EXPLICIT.
  rewrite Z.shiftr_lor.
  change (Z.shiftr (Z.shiftl 1 0) 24) with 0.
  rewrite (Z.shiftr_shiftl_l code 24 24) by lia.
  change (24 - 24) with 0. rewrite Z.shiftl_0_r, Z.lor_0_l.
  change 0xFF with (Z.ones 8). rewrite Z.land_ones by lia.
  apply Z.mod_small. simpl. lia.
Qed.

Lemma not_contention_of_code (s : Z) :
  _XABORT_CODE s <> 0xFF -> is_contention s = false.
Proof.
  intros Hc. unfold is_contention, CONTENTION_CODE.
  rewrite (proj2 (Z.eqb_neq _ _) Hc). apply andb_false_r.
Qed.

Lemma contention_inv (s : Z) :
  is_contention s = true ->
  Z.land s _XABORT_EXPLICIT <> 0 /\ _XABORT_CODE s = 0xFF.
Proof.
  unfold is_contention, CONTENTION_CODE. intros H.
  apply andb_prop in H. destruct H as [He Hc].
  apply negb_true_iff, Z.eqb_neq in He. apply Z.eqb_eq in Hc. auto.
Qed.

Lemma abort_observed_body {LT : LockType} (w : world) (s : Z) :
  abort_observed w = Some s ->
  exists pre,
    attempt_body w =
    aborted s (mkWorld (hw w) (S (nbegin w)) false (fallback_ w)
                       (trace w ++ pre)) /\
    (pre = [EvXBegin s] /\ (s =? _XBEGIN_STARTED) = false /\
       hw w (nbegin w) = s \/
     pre = [EvXBegin _XBEGIN_STARTED; EvQuery true; EvXAbort 0xFF] /\
       s = xabort_status CONTENTION_CODE /\
       hw w (nbegin w) = _XBEGIN_STARTED /\ is_held (fallback_ w) = true).
Proof.
  unfold abort_observed. intros H.
  destruct (hw w (nbegin w) =? _XBEGIN_STARTED) eqn:Hs.
  - destruct (is_held (fallback_ w)) eqn:Hq; [ | discriminate].
    injection H as <-. apply Z.eqb_eq in Hs.
    exists [EvXBegin _XBEGIN_STARTED; EvQuery true; EvXAbort 0xFF].
    split; [ | right; auto].
    unfold attempt_body, _xbegin, isFallbackLocked, log, _xabort. simpl.
    rewrite Hs, Hq. simpl. now rewrite <- !app_assoc.
  - injection H as <-. exists [EvXBegin (hw w (nbegin w))].
    split; [ | left; auto]. now apply attempt_body_aborted.
Qed.

(** ** The entry protocol *)

(** C10: with a negative retry bound [enter] makes no transaction attempt
    at all: it never calls [_xbegin], never asks whether the lock is held,
    takes the fallback lock at once and returns in locked mode. *)
Theorem enter_negative_bound {LT : LockType} (n : Z) (w : world) :
  n < 0 ->
  enter n w = lockFallback w /\
  trace (enter n w) = trace w ++ [EvLock] /\
  nbegin (enter n w) = nbegin w /\
  fallback_ (enter n w) = Self /\
  (rtm_active w = false -> entry_mode (enter n w) = Locked).
Proof.
  intros Hn. unfold enter. rewrite enter_from_done by lia.
  conjs; try reflexivity.
  unfold entry_mode. simpl. now intros ->.
Qed.

Lemma enter_negative_bound_witness :
  -1 < 0 /\
  trace (@enter generic (-1) (fresh (always _XBEGIN_STARTED) Free)) = [EvLock] /\
  nbegin (@enter generic (-1) (fresh (always _XBEGIN_STARTED) Free)) = 0%nat /\
  entry_mode (@enter generic (-1) (fresh (always _XBEGIN_STARTED) Free)) = Locked.
Proof.
  split; [lia | ].
  destruct (@enter_negative_bound generic (-1)
              (fresh (always _XBEGIN_STARTED) Free) ltac:(lia))
    as (_ & Ht & Hn & _ & Hm).
  split; [exact Ht | split; [exact Hn | exact (Hm eq_refl)]].
Defined.

(** C2: in a turn of the loop whose transaction starts, [enter] asks
    whether the fallback lock is held.  If it is not, [enter] returns at
    once, inside the transaction, and the lock is as it was.  If it is,
    [enter] aborts the transaction with the reserved code 0xFF, the one
    code the loop takes for contention: the status of an abort with any
    other code is not a contention status. *)
Theorem enter_started_transaction {LT : LockType}
    (nretries attempt : Z) (w : world) :
  attempt <= nretries ->
  hw w (nbegin w) = _XBEGIN_STARTED ->
  (is_held (fallback_ w) = false ->
     enter_from nretries attempt w =
     mkWorld (hw w) (S (nbegin w)) true (fallback_ w)
             (trace w ++ [EvXBegin _XBEGIN_STARTED; EvQuery false]) /\
     entry_mode (enter_from nretries attempt w) = Transactional) /\
  (is_held (fallback_ w) = true ->
     exists rest,
       trace (enter_from nretries attempt w) =
       trace w ++ [EvXBegin _XBEGIN_STARTED; EvQuery true; EvXAbort 0xFF]
               ++ rest) /\
  (forall code, 0 <= code < 256 ->
     is_contention (xabort_status code) = true <-> code = 0xFF).
Proof.
  intros Hle Hs. split; [ | split]; [intros Hq | intros Hq | ].
  3: { intros code Hr. split; [ | intros ->; reflexivity].
       intros Hc. apply contention_inv in Hc.
       now rewrite xabort_status_code in Hc. }
  - rewrite (enter_from_return _ Hle (attempt_body_started_free w Hs Hq)).
    split; reflexivity.
  - rewrite (enter_from_continue _ Hle (attempt_body_started_held w Hs Hq)).
    match goal with |- context [enter_from ?n ?a ?w1] =>
      destruct (enter_from_trace n a w1) as (evs & ->) end.
    simpl. exists ([EvLock; EvUnlock] ++ evs).
    rewrite <- app_assoc. reflexivity.
Qed.

Lemma enter_started_transaction_witness :
  (0 <= 3 /\
   hw (fresh (always _XBEGIN_STARTED) Free) 0%nat = _XBEGIN_STARTED /\
   @is_held generic Free = false /\
   trace (@enter generic 3 (fresh (always _XBEGIN_STARTED) Free)) =
   [EvXBegin _XBEGIN_STARTED; EvQuery false]) /\
  (@is_held probing Other = true /\
   exists rest,
     trace (@enter probing 3 (fresh (always _XBEGIN_STARTED) Other)) =
     [EvXBegin _XBEGIN_STARTED; EvQuery true; EvXAbort 0xFF] ++ rest).
Proof.
  split.
  - split; [lia | ]. split; [reflexivity | ]. split; [reflexivity | ].
    destruct (@enter_started_transaction generic 3 0
                (fresh (always _XBEGIN_STARTED) Free) ltac:(lia) eq_refl)
      as [H _].
    destruct (H eq_refl) as [-> _]. reflexivity.
  - split; [reflexivity | ].
    destruct (@enter_started_transaction probing 3 0
                (fresh (always _XBEGIN_STARTED) Other) ltac:(lia) eq_refl)
      as (_ & H & _).
    exact (H eq_refl).
Defined.

(** C8: an explicit abort whose code is not 0xFF is an "other abort":
    the loop goes on without touching the lock when the retry hint is
    set, and leaves for the fallback when it is not.  The wait on the
    lock happens only for a status that is explicit and carries the code
    0xFF; the status of a body's own [_xabort] with another code is
    never taken for it. *)
Theorem explicit_abort_isolation {LT : LockType}
    (nretries attempt : Z) (w : world) (s : Z) :
  (Z.land s _XABORT_EXPLICIT <> 0 -> _XABORT_CODE s <> 0xFF ->
     aborted s w = (if retry_hint s then Continue else Break, w)) /\
  (attempt <= nretries -> hw w (nbegin w) = s ->
   Z.land s _XABORT_EXPLICIT <> 0 -> _XABORT_CODE s <> 0xFF ->
     let w1 := mkWorld (hw w) (S (nbegin w)) false (fallback_ w)
                       (trace w ++ [EvXBegin s]) in
     enter_from nretries attempt w =
     if retry_hint s then enter_from nretries (attempt + 1) w1
     else lockFallback w1) /\
  (snd (aborted s w) <> w ->
     Z.land s _XABORT_EXPLICIT <> 0 /\ _XABORT_CODE s = 0xFF) /\
  (forall code, 0 <= code < 256 -> code <> 0xFF ->
     is_contention (xabort_status code) = false).
Proof.
  assert (Hother : _XABORT_CODE s <> 0xFF ->
            aborted s w = (if retry_hint s then Continue else Break, w)).
  { intros Hc. unfold aborted. rewrite (not_contention_of_code _ Hc).
    now destruct (retry_hint s). }
  conjs.
  - intros _ Hc. auto.
  - intros Hle Hs _ Hc w1.
    assert (Hns : (hw w (nbegin w) =? _XBEGIN_STARTED) = false).
    { apply Z.eqb_neq. intros E. apply Hc. rewrite <- Hs, E. reflexivity. }
    pose proof (attempt_body_aborted w Hns) as Hb. rewrite Hs in Hb.
    unfold aborted in Hb. rewrite (not_contention_of_code _ Hc) in Hb.
    destruct (retry_hint s); simpl in Hb.
    + now apply enter_from_continue.
    + now apply enter_from_break.
  - intros Hw. apply contention_inv. unfold aborted in Hw.
    destruct (is_contention s); [reflexivity | ].
    destruct (negb (retry_hint s)); simpl in Hw; congruence.
  - intros code Hr Hc. apply not_contention_of_code.
    now rewrite xabort_status_code.
Qed.

Lemma explicit_abort_isolation_witness :
  (Z.land 0x2A000001 _XABORT_EXPLICIT <> 0 /\
   _XABORT_CODE 0x2A000001 <> 0xFF /\
   trace (@enter generic 3 (fresh (always 0x2A000001) Free)) =
   [EvXBegin 0x2A000001; EvLock]) /\
  (Z.land 0xFF000001 _XABORT_EXPLICIT <> 0 /\ _XABORT_CODE 0xFF000001 = 0xFF).
Proof.
  pose proof (@explicit_abort_isolation generic 3 0
                (fresh (always 0x2A000001) Free) 0x2A000001) as (_ & H & _).
  pose proof (@explicit_abort_isolation generic 3 0
                (fresh (always 0xFF000001) Free) 0xFF000001) as (_ & _ & H' & _).
  split.
  - split; [discriminate | ]. split; [discriminate | ].
    unfold enter.
    rewrite (H ltac:(lia) eq_refl ltac:(discriminate) ltac:(discriminate)).
    reflexivity.
  - apply H'. simpl. intros E. apply (f_equal trace) in E. discriminate E.
Defined.

(** C3, as the code has it, for a retry bound below [INT_MAX]: on an
    abort that is explicit and carries the code 0xFF, [enter] takes the
    fallback lock and gives it back at once, and does not leave the
    loop.  When an attempt remains ([attempt < nretries]) the next thing
    it does is call [_xbegin] again; on the last attempt the loop is over
    and [enter] takes the fallback lock for good. *)
Theorem contention_abort_waits {LT : LockType}
    (nretries attempt : Z) (w : world) (s : Z) :
  nretries < INT_MAX ->
  attempt <= nretries ->
  abort_observed w = Some s ->
  is_contention s = true ->
  exists pre,
    let w1 := mkWorld (hw w) (S (nbegin w)) false Free
                      (trace w ++ pre ++ [EvLock; EvUnlock]) in
    count is_lock pre = 0%nat /\
    count is_unlock pre = 0%nat /\
    attempt_body w = (Continue, w1) /\
    enter_from nretries attempt w = enter_from nretries (attempt + 1) w1 /\
    (attempt < nretries ->
       exists rest,
         trace (enter_from nretries attempt w) =
         trace w1 ++ EvXBegin (hw w (S (nbegin w))) :: rest) /\
    (attempt = nretries ->
       enter_from nretries attempt w = lockFallback w1).
Proof.
  intros _ Hle Hobs Hc.
  destruct (abort_observed_body w Hobs) as (pre & Hb & Hpre).
  rewrite (aborted_contention _ _ Hc) in Hb. simpl in Hb.
  rewrite <- app_assoc in Hb.
  exists pre. intros w1.
  assert (Hcount : count is_lock pre = 0%nat /\ count is_unlock pre = 0%nat).
  { destruct Hpre as [(-> & _) | (-> & _)]; split; reflexivity. }
  destruct Hcount as [Hl Hu].
  pose proof (enter_from_continue _ Hle Hb) as Hnext. fold w1 in Hnext.
  conjs; auto.
  - intros Hlt. rewrite Hnext.
    apply (enter_from_begins (nretries := nretries) (attempt := attempt + 1) w1).
    lia.
  - intros ->. rewrite Hnext. apply enter_from_done. lia.
Qed.

Lemma contention_abort_waits_witness :
  1 < INT_MAX /\
  0 <= 1 /\
  @abort_observed generic (fresh (always 0xFF000001) Free) = Some 0xFF000001 /\
  is_contention 0xFF000001 = true /\
  exists rest,
    trace (@enter generic 1 (fresh (always 0xFF000001) Free)) =
    [EvXBegin 0xFF000001; EvLock; EvUnlock; EvXBegin 0xFF000001] ++ rest.
Proof.
  split; [reflexivity | ].
  split; [lia | ]. split; [reflexivity | ]. split; [reflexivity | ].
  destruct (@contention_abort_waits generic 1 0
              (fresh (always 0xFF000001) Free) 0xFF000001
              eq_refl ltac:(lia) eq_refl eq_refl)
    as (pre & _ & _ & Hb & _ & Hnext & _).
  injection Hb as Hpre.
  pose proof (app_inv_tail [EvLock; EvUnlock] [EvXBegin 0xFF000001] pre Hpre).
  subst pre. destruct (Hnext ltac:(lia)) as (rest & Hrest).
  exists rest. exact Hrest.
Defined.

(** C3 as stated fails on the last attempt: with [nretries = 0] and a
    contention abort, [enter] waits on the lock and then, with no attempt
    left, falls back; [_xbegin] is called once only. *)
Lemma contention_on_last_attempt_falls_back :
  is_contention 0xFF000001 = true /\
  trace (@enter generic 0 (fresh (always 0xFF000001) Free)) =
  [EvXBegin 0xFF000001; EvLock; EvUnlock; EvLock] /\
  nbegin (@enter generic 0 (fresh (always 0xFF000001) Free)) = 1%nat /\
  entry_mode (@enter generic 0 (fresh (always 0xFF000001) Free)) = Locked /\
  ~ (exists status rest,
       trace (@enter generic 0 (fresh (always 0xFF000001) Free)) =
       [EvXBegin 0xFF000001; EvLock; EvUnlock; EvXBegin status] ++ rest).
Proof.
  conjs; try (vm_compute; reflexivity).
  intros (status & rest & H). vm_compute in H. discriminate H.
Qed.



(** ** Progress *)

(** What [enter] adds to the trace, counted. *)
Lemma enter_counts {LT : LockType} (nretries : Z) (w : world) :
  exists evs,
    trace (enter nretries w) = trace w ++ evs /\
    nbegin (enter nretries w) = (nbegin w + count is_begin evs)%nat /\
    (count is_begin evs <= Z.to_nat (nretries + 1))%nat /\
    count is_unlock evs = count is_contention_abort evs /\
    (count is_unlock evs <= count is_begin evs)%nat /\
    (count is_lock evs <= count is_unlock evs + 1)%nat.
Proof.
  unfold enter, enter_from.
  destruct (enter_loop_effect nretries 0 w (Nat.le_refl _))
    as (evs & [Ht Hh Hnb Hbal Hw Hwle Hq] & Hb & _).
  replace (nretries + 1 - 0) with (nretries + 1) in Hb by lia.
  destruct (enter_loop nretries 0 w) as [[ | ] w']; simpl in *.
  - exists evs. conjs; auto; lia.
  - exists (evs ++ [EvLock]). rewrite !count_app.
    change (count is_begin [EvLock]) with 0%nat.
    change (count is_unlock [EvLock]) with 0%nat.
    change (count is_contention_abort [EvLock]) with 0%nat.
    change (count is_lock [EvLock]) with 1%nat.
    conjs; try lia.
    rewrite Ht. now rewrite app_assoc.
Qed.

(** C7, as the code has it, for a retry bound that is not negative and
    below [INT_MAX]: [enter] returns; it calls [_xbegin] at most
    [nretries + 1] times; it takes and at once gives back the fallback
    lock once for each contention abort it sees, at most once per
    attempt, and takes it at most once more, to keep it.  So it blocks
    on the lock at most [nretries + 2] times. *)
Theorem enter_progress {LT : LockType} (nretries : Z) (w : world) :
  0 <= nretries ->
  nretries < INT_MAX ->
  exists evs,
    trace (enter nretries w) = trace w ++ evs /\
    nbegin (enter nretries w) = (nbegin w + count is_begin evs)%nat /\
    Z.of_nat (count is_begin evs) <= nretries + 1 /\
    count is_unlock evs = count is_contention_abort evs /\
    (count is_unlock evs <= count is_begin evs)%nat /\
    (count is_lock evs <= count is_unlock evs + 1)%nat /\
    Z.of_nat (count is_lock evs) <= nretries + 2.
Proof.
  intros Hn _.
  destruct (enter_counts nretries w) as (evs & Ht & Hnb & Hb & Hw & Hwle & Hl).
  exists evs. conjs; auto; lia.
Qed.

Lemma enter_progress_witness :
  0 <= 1 /\
  1 < INT_MAX /\
  exists evs,
    trace (@enter generic 1 (fresh (always 0xFF000001) Free)) = evs /\
    Z.of_nat (count is_begin evs) <= 1 + 1 /\
    Z.of_nat (count is_lock evs) <= 1 + 2.
Proof.
  split; [lia | ]. split; [reflexivity | ].
  destruct (@enter_progress generic 1 (fresh (always 0xFF000001) Free)
              ltac:(lia) eq_refl)
    as (evs & Ht & _ & Hb & _ & _ & _ & Hl).
  exists evs. auto.
Defined.

(** C7 as stated fails: with [nretries = 1] and two contention aborts
    [enter] blocks on the fallback lock three times. *)
Lemma enter_blocks_more_than_once :
  trace (@enter generic 1 (fresh (always 0xFF000001) Free)) =
  [EvXBegin 0xFF000001; EvLock; EvUnlock;
   EvXBegin 0xFF000001; EvLock; EvUnlock; EvLock] /\
  count is_lock (trace (@enter generic 1 (fresh (always 0xFF000001) Free))) =
  3%nat /\
  ~ (count is_lock (trace (@enter generic 1 (fresh (always 0xFF000001) Free)))
     <= 1)%nat.
Proof.
  conjs; try (vm_compute; reflexivity).
  vm_compute. lia.
Qed.

(** ** Construction *)

(** C9, as the code has it: the constructor takes the fallback lock and
    nothing else, and always runs the entry protocol with the bound 3,
    hence with at most 4 calls of [_xbegin]; it behaves as a constructor
    with an optional retry count would when none is given. *)
Theorem constructor_retry_bound {LT : LockType} (w : world) :
  XScope_ctor w = XScope_ctor_with_override None w /\
  cbs_ (fst (XScope_ctor w)) = [] /\
  snd (XScope_ctor w) = enter 3 w /\
  exists evs,
    trace (snd (XScope_ctor w)) = trace w ++ evs /\
    nbegin (snd (XScope_ctor w)) = (nbegin w + count is_begin evs)%nat /\
    (count is_begin evs <= 4)%nat.
Proof.
  conjs; try reflexivity. simpl.
  destruct (enter_counts 3 w) as (evs & Ht & Hn & Hb & _).
  exists evs. conjs; auto.
Qed.

(** C9 as stated fails: no retry count reaches the constructor.  Where a
    constructor given the override 0 would stop after one attempt, the
    scope makes four. *)
Lemma constructor_ignores_override :
  nbegin (snd (@XScope_ctor generic (fresh (always _XABORT_RETRY) Free))) =
  4%nat /\
  nbegin (snd (@XScope_ctor_with_override generic (Some 0)
                 (fresh (always _XABORT_RETRY) Free))) = 1%nat /\
  snd (@XScope_ctor generic (fresh (always _XABORT_RETRY) Free)) <>
  snd (@XScope_ctor_with_override generic (Some 0)
         (fresh (always _XABORT_RETRY) Free)).
Proof.
  conjs; try (vm_compute; reflexivity).
  intros H. apply (f_equal nbegin) in H. vm_compute in H. discriminate H.
Qed.

(** ** The exit protocol *)

Lemma cbs_registered {LT : LockType} (hs : list callback) (s : XScope) :
  cbs_ (fold_left (fun s h => registerCommitCallback h s) hs s) = cbs_ s ++ hs.
Proof.
  revert s. induction hs as [ | h hs IH]; intros s; simpl.
  - now rewrite app_nil_r.
  - rewrite IH. simpl. now rewrite <- app_assoc.
Qed.

Lemma run_log_callbacks (ids : list nat) (w : world) :
  trace (run_callbacks (map log_cb ids) w) = trace w ++ map EvCallback ids.
Proof.
  revert w. induction ids as [ | id ids IH]; intros w; simpl.
  - now rewrite app_nil_r.
  - unfold run_callbacks in IH. rewrite IH. simpl. now rewrite <- app_assoc.
Qed.

Lemma terminate_trace {LT : LockType} (w : world) :
  trace (terminate w) =
  trace w ++ [EvQuery (is_held (fallback_ w));
              if is_held (fallback_ w) then EvUnlock else EvXEnd].
Proof.
  unfold terminate, isFallbackLocked.
  destruct (is_held (fallback_ w)); simpl; now rewrite <- app_assoc.
Qed.

(** X12: the calls of [exit] in order: the lock query, then [_xend] when
    it answered "not held" or the unlock when it answered "held", then
    the callbacks registered on the scope, each once, in the order of
    registration.  No callback runs before the [_xend] or the unlock is
    called; whether that call has ended the critical section depends on
    the answer of the query being right. *)
Theorem callbacks_run_once_in_order {LT : LockType}
    (w0 : world) (hs : list callback) (ids : list nat) (w : world) :
  exit (fold_left (fun s h => registerCommitCallback h s) hs
                  (fst (XScope_ctor w0))) w =
  fold_left (fun w h => h w) hs (terminate w) /\
  trace (exit (fold_left (fun s h => registerCommitCallback h s)
                         (map log_cb ids) (fst (XScope_ctor w0))) w) =
  trace w ++ [EvQuery (is_held (fallback_ w));
              if is_held (fallback_ w) then EvUnlock else EvXEnd]
          ++ map EvCallback ids.
Proof.
  unfold exit. rewrite !cbs_registered. simpl. split; [reflexivity | ].
  rewrite run_log_callbacks, terminate_trace. now rewrite <- app_assoc.
Qed.

(** A lock type whose query reports a lock held by the asking thread as
    held makes [exit] act on the mode [enter] ended in. *)
Lemma exit_mode_matches_entry {LT : LockType} (nretries : Z) (w : world) :
  is_held Self = true ->
  rtm_active w = false ->
  exit_mode (enter nretries w) = entry_mode (enter nretries w).
Proof.
  intros Hself Hw. unfold enter.
  destruct (enter_from_effect nretries 0 w Hw)
    as (evs & _ & _ & _ & _ & _ & _ & _ & Hmode).
  unfold exit_mode.
  destruct (entry_mode (enter_from nretries 0 w)).
  - destruct Hmode as (_ & -> & _). reflexivity.
  - destruct Hmode as (_ & -> & _). now rewrite Hself.
Qed.

(** With the primary template's query [exit] never unlocks. *)
Lemma exit_generic_keeps_lock (w : world) :
  @exit_mode generic w = Transactional /\
  fallback_ (@terminate generic w) = fallback_ w /\
  trace (@terminate generic w) = trace w ++ [EvQuery false; EvXEnd].
Proof.
  unfold exit_mode, terminate, isFallbackLocked. simpl.
  rewrite <- app_assoc. auto.
Qed.

(** C1 fails for a lock type that keeps the primary template's
    [isFallbackLocked]: the first [_xbegin] aborts for capacity, [enter]
    takes the fallback lock, and [exit] calls [_xend], outside any
    transaction, and leaves the lock held. *)
Theorem exit_generic_after_fallback :
  let w := fresh (always _XABORT_CAPACITY) Free in
  let s := fst (@XScope_ctor generic w) in
  let w1 := snd (@XScope_ctor generic w) in
  trace w1 = [EvXBegin _XABORT_CAPACITY; EvLock] /\
  entry_mode w1 = Locked /\
  fallback_ w1 = Self /\
  rtm_active w1 = false /\
  @exit_mode generic w1 = Transactional /\
  trace (@exit generic s w1) =
  [EvXBegin _XABORT_CAPACITY; EvLock; EvQuery false; EvXEnd] /\
  fallback_ (@exit generic s w1) = Self.
Proof. vm_compute. conjs; reflexivity. Qed.

(** ** Further properties of the entry protocol *)

Lemma entry_events_nil : entry_events [].
Proof. unfold entry_events, count. simpl. conjs; auto. Qed.

Lemma entry_events_app e1 e2 :
  entry_events e1 -> entry_events e2 -> entry_events (e1 ++ e2).
Proof.
  unfold entry_events. intros (? & ? & ? & ? & ?) (? & ? & ? & ? & ?).
  rewrite !count_app, forallb_app. conjs; try lia.
  apply andb_true_iff. auto.
Qed.

Lemma attempt_body_events {LT : LockType} (w : world) :
  exists evs,
    trace (snd (attempt_body w)) = trace w ++ evs /\
    entry_events evs /\
    ((forall h, is_held h = false) -> count is_query_held evs = 0%nat).
Proof.
  destruct (hw w (nbegin w) =? _XBEGIN_STARTED) eqn:Hs.
  - apply Z.eqb_eq in Hs. destruct (is_held (fallback_ w)) eqn:Hq.
    + rewrite (attempt_body_started_held w Hs Hq). eexists.
      split; [reflexivity | split].
      * unfold entry_events, count. simpl. conjs; auto.
      * intros Hnever. rewrite Hnever in Hq. discriminate.
    + rewrite (attempt_body_started_free w Hs Hq). eexists.
      split; [reflexivity | split; [ | reflexivity]].
      unfold entry_events, count. simpl. conjs; auto.
  - rewrite (attempt_body_aborted w Hs). unfold aborted.
    destruct (is_contention _); [ | destruct (negb _)]; simpl.
    + exists [EvXBegin (hw w (nbegin w)); EvLock; EvUnlock].
      rewrite <- !app_assoc. split; [reflexivity | split; [ | reflexivity]].
      unfold entry_events, count. simpl. conjs; auto.
    + exists [EvXBegin (hw w (nbegin w))].
      split; [reflexivity | split; [ | reflexivity]].
      unfold entry_events, count. simpl. conjs; auto.
    + exists [EvXBegin (hw w (nbegin w))].
      split; [reflexivity | split; [ | reflexivity]].
      unfold entry_events, count. simpl. conjs; auto.
Qed.

Lemma enter_loop_events {LT : LockType} (k : nat) :
  forall nretries attempt w,
    (Z.to_nat (nretries + 1 - attempt) <= k)%nat ->
    exists evs,
      trace (snd (enter_loop nretries attempt w)) = trace w ++ evs /\
      entry_events evs /\
      ((forall h, is_held h = false) -> count is_query_held evs = 0%nat).
Proof.
  induction k as [ | k IH]; intros nretries attempt w Hk;
    rewrite enter_loop_step;
    destruct (attempt <=? nretries) eqn:Hle;
    try (exists []; simpl; rewrite app_nil_r;
         split; [reflexivity | split; [apply entry_events_nil | reflexivity]]);
    apply Z.leb_le in Hle; [lia | ].
  destruct (attempt_body_events w) as (e1 & Ht1 & He1 & Hg1).
  destruct (attempt_body w) as [[ | | ] w1]; simpl in *;
    try solve [exists e1; auto].
  destruct (IH nretries (attempt + 1) w1 ltac:(lia)) as (e2 & Ht2 & He2 & Hg2).
  exists (e1 ++ e2). rewrite Ht2, Ht1, app_assoc.
  split; [reflexivity | split; [now apply entry_events_app | ]].
  intros Hnever. rewrite count_app, Hg1, Hg2; auto.
Qed.

Lemma enter_events {LT : LockType} (nretries : Z) (w : world) :
  exists evs,
    trace (enter nretries w) = trace w ++ evs /\
    entry_events evs /\
    ((forall h, is_held h = false) -> count is_query_held evs = 0%nat).
Proof.
  unfold enter, enter_from.
  destruct (enter_loop_events nretries 0 w (Nat.le_refl _))
    as (evs & Ht & He & Hg).
  destruct (enter_loop nretries 0 w) as [[ | ] w']; simpl in *.
  - exists evs. auto.
  - exists (evs ++ [EvLock]). rewrite Ht, app_assoc.
    split; [reflexivity | split].
    + apply entry_events_app; [exact He | ].
      unfold entry_events, count. simpl. conjs; auto.
    + intros Hnever. rewrite count_app, Hg; auto.
Qed.

(** X1: an entry that starts outside a transaction ends in exactly one of
    two ways.  Either the thread is inside the transaction of the last
    attempt, whose lock query answered "not held", and every lock taken
    on the way was given back; or it is in no transaction, holds the
    fallback lock, took it as its last act, and has given back every
    lock taken before. *)
Theorem enter_two_modes {LT : LockType}
    (nretries : Z) (w : world) (evs : list event) :
  rtm_active w = false ->
  trace (enter nretries w) = trace w ++ evs ->
  (rtm_active (enter nretries w) = true /\
   is_held (fallback_ (enter nretries w)) = false /\
   count is_lock evs = count is_unlock evs /\
   exists pre, evs = pre ++ [EvXBegin _XBEGIN_STARTED; EvQuery false]) \/
  (rtm_active (enter nretries w) = false /\
   fallback_ (enter nretries w) = Self /\
   count is_lock evs = S (count is_unlock evs) /\
   exists pre, evs = pre ++ [EvLock]).
Proof.
  intros Hw Ht. unfold enter in *.
  destruct (enter_from_effect nretries 0 w Hw)
    as (evs' & Ht' & _ & _ & _ & _ & _ & _ & Hmode).
  rewrite Ht in Ht'. apply app_inv_head in Ht'. subst evs'.
  unfold entry_mode in Hmode.
  destruct (rtm_active (enter_from nretries 0 w)).
  - left. destruct Hmode as (? & ? & ?). auto.
  - right. destruct Hmode as (? & ? & ?). auto.
Qed.

Lemma enter_two_modes_witness :
  rtm_active (fresh (always _XABORT_CAPACITY) Free) = false /\
  trace (@enter generic 3 (fresh (always _XABORT_CAPACITY) Free)) =
  [] ++ [EvXBegin _XABORT_CAPACITY; EvLock] /\
  fallback_ (@enter generic 3 (fresh (always _XABORT_CAPACITY) Free)) = Self.
Proof.
  split; [reflexivity | ]. split; [reflexivity | ].
  destruct (@enter_two_modes generic 3 (fresh (always _XABORT_CAPACITY) Free)
              [EvXBegin _XABORT_CAPACITY; EvLock] eq_refl eq_refl)
    as [(Hact & _) | (_ & Hself & _)].
  - discriminate Hact.
  - exact Hself.
Defined.

(** X2: whatever the processor answers, [enter] never calls [_xend] and
    runs no callback; the only [_xabort] it issues carries the code 0xFF,
    one for each lock query answered "held"; and it asks about the lock
    at most once per call of [_xbegin]. *)
Theorem enter_only_enters {LT : LockType}
    (nretries : Z) (w : world) (evs : list event) :
  trace (enter nretries w) = trace w ++ evs ->
  count is_xend evs = 0%nat /\
  count is_callback evs = 0%nat /\
  forallb reserved_abort evs = true /\
  count is_xabort evs = count is_query_held evs /\
  (count is_query evs <= count is_begin evs)%nat.
Proof.
  intros Ht. destruct (enter_events nretries w) as (evs' & Ht' & He & _).
  rewrite Ht in Ht'. apply app_inv_head in Ht'. subst evs'. exact He.
Qed.

Lemma enter_only_enters_witness :
  trace (@enter probing 3 (fresh (always _XBEGIN_STARTED) Other)) =
  [] ++ [EvXBegin _XBEGIN_STARTED; EvQuery true; EvXAbort 0xFF;
         EvLock; EvUnlock; EvXBegin _XBEGIN_STARTED; EvQuery false] /\
  count is_xabort
    [EvXBegin _XBEGIN_STARTED; EvQuery true; EvXAbort 0xFF;
     EvLock; EvUnlock; EvXBegin _XBEGIN_STARTED; EvQuery false] =
  count is_query_held
    [EvXBegin _XBEGIN_STARTED; EvQuery true; EvXAbort 0xFF;
     EvLock; EvUnlock; EvXBegin _XBEGIN_STARTED; EvQuery false].
Proof.
  split; [reflexivity | ].
  destruct (@enter_only_enters probing 3
              (fresh (always _XBEGIN_STARTED) Other) _ eq_refl)
    as (_ & _ & _ & H & _).
  exact H.
Defined.

(** X3: with the primary template's [isFallbackLocked] no lock query is
    ever answered "held", so [enter] never calls [_xabort]: the branch
    that aborts the transaction is dead, and a wait on the lock can only
    come from a status the processor returned. *)
Theorem generic_never_aborts (nretries : Z) (w : world) (evs : list event) :
  trace (@enter generic nretries w) = trace w ++ evs ->
  count is_query_held evs = 0%nat /\
  count is_xabort evs = 0%nat.
Proof.
  intros Ht.
  destruct (@enter_events generic nretries w)
    as (evs' & Ht' & (_ & _ & _ & Ha & _) & Hg).
  rewrite Ht in Ht'. apply app_inv_head in Ht'. subst evs'.
  assert (Hq : count is_query_held evs = 0%nat) by (apply Hg; reflexivity).
  split; [exact Hq | now rewrite Ha].
Qed.

Lemma generic_never_aborts_witness :
  trace (@enter generic 3 (fresh (always _XBEGIN_STARTED) Other)) =
  [] ++ [EvXBegin _XBEGIN_STARTED; EvQuery false] /\
  count is_xabort [EvXBegin _XBEGIN_STARTED; EvQuery false] = 0%nat.
Proof.
  split; [reflexivity | ].
  destruct (@generic_never_aborts 3 (fresh (always _XBEGIN_STARTED) Other)
              _ eq_refl) as (_ & H).
  exact H.
Defined.

(** ** The scope from entry to exit *)

(** X4: for a lock type whose query reports a lock held by the asking
    thread as held, and a critical section that leaves the lock alone,
    [exit] ends the mode [enter] chose: after a fallback entry it unlocks
    and the lock is free; after a transactional entry it calls [_xend]
    and does not touch the lock. *)
Theorem exit_acts_on_entry_mode {LT : LockType}
    (nretries : Z) (w : world) (body : world -> world) :
  is_held Self = true ->
  rtm_active w = false ->
  fallback_ (body (enter nretries w)) = fallback_ (enter nretries w) ->
  terminate (body (enter nretries w)) =
  match entry_mode (enter nretries w) with
  | Locked =>
      mkWorld (hw (body (enter nretries w))) (nbegin (body (enter nretries w)))
              (rtm_active (body (enter nretries w))) Free
              (trace (body (enter nretries w)) ++ [EvQuery true; EvUnlock])
  | Transactional =>
      mkWorld (hw (body (enter nretries w))) (nbegin (body (enter nretries w)))
              false (fallback_ (enter nretries w))
              (trace (body (enter nretries w)) ++ [EvQuery false; EvXEnd])
  end.
Proof.
  intros Hself Hw Hbody.
  pose proof (exit_mode_matches_entry nretries w Hself Hw) as Hmode.
  unfold exit_mode in Hmode. unfold terminate, isFallbackLocked.
  rewrite Hbody.
  destruct (entry_mode (enter nretries w));
    destruct (is_held (fallback_ (enter nretries w))); try discriminate;
    unfold unlockFallback, _xend, log; simpl;
    rewrite <- app_assoc, ?Hbody; reflexivity.
Qed.

Lemma exit_acts_on_entry_mode_witness :
  @is_held probing Self = true /\
  fallback_ (@terminate probing
               (@enter probing 3 (fresh (always _XABORT_CAPACITY) Free))) =
  Free /\
  trace (@terminate probing
           (@enter probing 3 (fresh (always _XABORT_CAPACITY) Free))) =
  [EvXBegin _XABORT_CAPACITY; EvLock; EvQuery true; EvUnlock].
Proof.
  split; [reflexivity | ].
  pose proof (@exit_acts_on_entry_mode probing 3
                (fresh (always _XABORT_CAPACITY) Free) (fun w => w)
                eq_refl eq_refl eq_refl) as H.
  rewrite H. split; reflexivity.
Defined.

(** X5: with the primary template's [isFallbackLocked], [exit] calls
    [_xend] and never unlocks, whatever the entry did: after every
    fallback entry the lock is still held by the scope's thread when the
    critical section has been ended. *)
Theorem generic_exit_keeps_lock_held
    (nretries : Z) (w : world) (body : world -> world) :
  rtm_active w = false ->
  fallback_ (body (@enter generic nretries w)) =
  fallback_ (@enter generic nretries w) ->
  entry_mode (@enter generic nretries w) = Locked ->
  fallback_ (@terminate generic (body (@enter generic nretries w))) = Self /\
  trace (@terminate generic (body (@enter generic nretries w))) =
  trace (body (@enter generic nretries w)) ++ [EvQuery false; EvXEnd].
Proof.
  intros Hw Hbody Hmode.
  destruct (exit_generic_keeps_lock (body (@enter generic nretries w)))
    as (_ & Hf & Ht).
  rewrite Hf, Ht, Hbody. split; [ | reflexivity].
  unfold enter in *.
  destruct (@enter_from_effect generic nretries 0 w Hw)
    as (evs & _ & _ & _ & _ & _ & _ & _ & Hm).
  rewrite Hmode in Hm. now destruct Hm as (_ & Hself & _).
Qed.

Lemma generic_exit_keeps_lock_held_witness :
  rtm_active (fresh (always 4) Free) = false /\
  entry_mode (@enter generic 0 (fresh (always 4) Free)) = Locked /\
  fallback_ (@terminate generic (@enter generic 0 (fresh (always 4) Free))) =
  Self.
Proof.
  split; [reflexivity | ]. split; [reflexivity | ].
  destruct (@generic_exit_keeps_lock_held 0 (fresh (always 4) Free)
              (fun w => w) eq_refl eq_refl eq_refl) as (H & _).
  exact H.
Defined.

(** X6: callbacks registered later run later, on every scope: [exit]
    after registering the handlers [hs] does what [exit] did before and
    then runs [hs] in order; the destructor is [exit]. *)
Theorem register_then_exit {LT : LockType}
    (hs : list callback) (h : callback) (s : XScope) (w : world) :
  exit (fold_left (fun s h => registerCommitCallback h s) hs s) w =
  run_callbacks hs (exit s w) /\
  XScope_dtor (registerCommitCallback h s) w = h (XScope_dtor s w).
Proof.
  unfold XScope_dtor, exit. rewrite cbs_registered.
  unfold run_callbacks, registerCommitCallback. simpl.
  rewrite !fold_left_app. simpl. auto.
Qed.

(** ** Runs of retried attempts *)

Lemma retryable_body {LT : LockType} (w : world) :
  retryable (hw w (nbegin w)) = true ->
  attempt_body w =
  (Continue,
   mkWorld (hw w) (S (nbegin w)) false (fallback_ w)
           (trace w ++ [EvXBegin (hw w (nbegin w))])).
Proof.
  unfold retryable. intros H.
  apply andb_prop in H. destruct H as [H Hr].
  apply andb_prop in H. destruct H as [Hs Hc].
  apply negb_true_iff in Hs. apply negb_true_iff in Hc.
  rewrite (attempt_body_aborted w Hs). now apply aborted_retry.
Qed.

Lemma enter_from_skip_retries {LT : LockType} (j : nat) :
  forall nretries attempt w,
    attempt + Z.of_nat j <= nretries + 1 ->
    rtm_active w = false ->
    (forall i, (i < j)%nat -> retryable (hw w (nbegin w + i)) = true) ->
    enter_from nretries attempt w =
    enter_from nretries (attempt + Z.of_nat j) (after_retries w j).
Proof.
  induction j as [ | j IH]; intros nretries attempt w Hle Hw Hretry.
  - unfold after_retries, begins_of. simpl.
    rewrite Z.add_0_r, Nat.add_0_r, app_nil_r.
    destruct w; simpl in *; subst; reflexivity.
  - pose proof (Hretry 0%nat ltac:(lia)) as H0. rewrite Nat.add_0_r in H0.
    assert (Ha : attempt <= nretries) by lia.
    rewrite (enter_from_continue _ Ha (retryable_body w H0)).
    rewrite IH; simpl; try lia; try reflexivity.
    + replace (attempt + 1 + Z.of_nat j) with (attempt + Z.of_nat (S j)) by lia.
      f_equal. unfold after_retries, begins_of. simpl.
      rewrite <- app_assoc. simpl.
      now rewrite Nat.add_succ_r.
    + intros i Hi. specialize (Hretry (S i) ltac:(lia)).
      now rewrite Nat.add_succ_r in Hretry.
Qed.

(** X7: for a retry bound below [INT_MAX], the bound is reached exactly
    when every attempt aborts with a retry hint and no contention code:
    [enter] then calls [_xbegin] [nretries + 1] times, never touches the
    lock in between, and takes the fallback lock. *)
Theorem enter_retries_until_exhausted {LT : LockType}
    (nretries : Z) (w : world) :
  0 <= nretries ->
  nretries < INT_MAX ->
  rtm_active w = false ->
  (forall i, (i < Z.to_nat (nretries + 1))%nat ->
     retryable (hw w (nbegin w + i)) = true) ->
  enter nretries w =
  mkWorld (hw w) (nbegin w + Z.to_nat (nretries + 1)) false Self
          (trace w ++ begins_of w (Z.to_nat (nretries + 1)) ++ [EvLock]).
Proof.
  intros Hn _ Hw Hretry. unfold enter.
  rewrite enter_from_skip_retries with (j := Z.to_nat (nretries + 1))
    by (auto; lia).
  rewrite enter_from_done by lia.
  unfold lockFallback, after_retries. simpl. now rewrite <- app_assoc.
Qed.

Lemma enter_retries_until_exhausted_witness :
  0 <= 2 /\
  2 < INT_MAX /\
  trace (@enter generic 2 (fresh (always _XABORT_RETRY) Free)) =
  [EvXBegin _XABORT_RETRY; EvXBegin _XABORT_RETRY; EvXBegin _XABORT_RETRY;
   EvLock].
Proof.
  split; [lia | ]. split; [reflexivity | ].
  rewrite (@enter_retries_until_exhausted generic 2
             (fresh (always _XABORT_RETRY) Free) ltac:(lia) eq_refl eq_refl
             (fun i _ => eq_refl)).
  reflexivity.
Defined.

(** X8: after any number [j <= nretries] of attempts that abort with a
    retry hint, the first attempt that decides ends the entry, however
    many attempts are left.  If its transaction starts and the lock
    query answers "not held", [enter] returns inside it and has never
    touched the lock; if it aborts without a retry hint and without the
    contention code, [enter] takes the fallback lock.  Either way
    [_xbegin] has been called [j + 1] times. *)
Theorem enter_decided_after_retries {LT : LockType}
    (nretries : Z) (j : nat) (w : world) :
  Z.of_nat j <= nretries ->
  rtm_active w = false ->
  (forall i, (i < j)%nat -> retryable (hw w (nbegin w + i)) = true) ->
  (hw w (nbegin w + j) = _XBEGIN_STARTED ->
   is_held (fallback_ w) = false ->
     enter nretries w =
     mkWorld (hw w) (S (nbegin w + j)) true (fallback_ w)
             (trace w ++ begins_of w j
                     ++ [EvXBegin _XBEGIN_STARTED; EvQuery false])) /\
  ((hw w (nbegin w + j) =? _XBEGIN_STARTED) = false ->
   is_contention (hw w (nbegin w + j)) = false ->
   retry_hint (hw w (nbegin w + j)) = false ->
     enter nretries w =
     mkWorld (hw w) (S (nbegin w + j)) false Self
             (trace w ++ begins_of w j
                     ++ [EvXBegin (hw w (nbegin w + j)); EvLock])).
Proof.
  intros Hj Hw Hretry. unfold enter.
  rewrite enter_from_skip_retries with (j := j) by (auto; lia).
  assert (Ha : 0 + Z.of_nat j <= nretries) by lia.
  split.
  - intros Hs Hq.
    rewrite (enter_from_return _ Ha
               (attempt_body_started_free (after_retries w j) Hs Hq)).
    unfold after_retries. simpl. now rewrite <- app_assoc.
  - intros Hs Hc Hr.
    pose proof (attempt_body_aborted (after_retries w j) Hs) as Hb.
    simpl in Hb. rewrite (aborted_no_retry _ _ Hc Hr) in Hb.
    rewrite (enter_from_break _ Ha Hb).
    unfold lockFallback, after_retries. simpl. now rewrite <- !app_assoc.
Qed.

Lemma enter_decided_after_retries_witness :
  Z.of_nat 2 <= 3 /\
  trace (@enter generic 3
           (fresh (fun k => if (k <? 2)%nat then _XABORT_RETRY
                            else _XBEGIN_STARTED) Free)) =
  [EvXBegin _XABORT_RETRY; EvXBegin _XABORT_RETRY;
   EvXBegin _XBEGIN_STARTED; EvQuery false].
Proof.
  split; [simpl; lia | ].
  destruct (@enter_decided_after_retries generic 3 2
              (fresh (fun k => if (k <? 2)%nat then _XABORT_RETRY
                               else _XBEGIN_STARTED) Free)
              ltac:(simpl; lia) eq_refl) as [H _].
  - intros [ | [ | i]] Hi; try reflexivity. lia.
  - rewrite (H eq_refl eq_refl). reflexivity.
Defined.

(** ** The retry bound and the contention handoff *)

Lemma enter_loop_more_retries {LT : LockType} (k : nat) :
  forall nretries more attempt w,
    (Z.to_nat (nretries + 1 - attempt) <= k)%nat ->
    nretries <= more ->
    fst (enter_loop nretries attempt w) = true ->
    enter_loop more attempt w = enter_loop nretries attempt w.
Proof.
  induction k as [ | k IH]; intros nretries more attempt w Hk Hm;
    rewrite (enter_loop_step nretries), (enter_loop_step more);
    destruct (attempt <=? nretries) eqn:Hle;
    try (simpl; discriminate);
    apply Z.leb_le in Hle; [lia | ].
  rewrite (proj2 (Z.leb_le attempt more)) by lia.
  destruct (attempt_body w) as [[ | | ] w1]; try reflexivity.
  intros Hfst. apply IH; auto. lia.
Qed.

(** X9: the retry bound matters only to an entry that does not get into
    a transaction: if [enter] with the bound [nretries] returns inside a
    transaction, it does exactly the same with every larger bound. *)
Theorem enter_bound_irrelevant_after_success {LT : LockType}
    (nretries more : Z) (w : world) :
  rtm_active w = false ->
  nretries <= more ->
  entry_mode (enter nretries w) = Transactional ->
  enter more w = enter nretries w.
Proof.
  intros Hw Hm Hmode. unfold enter, enter_from in *.
  destruct (enter_loop_effect nretries 0 w (Nat.le_refl _))
    as (evs & _ & _ & _ & Hf).
  destruct (enter_loop nretries 0 w) as [[ | ] w'] eqn:Hloop; simpl in *.
  - rewrite (@enter_loop_more_retries _ _ nretries more 0 w
               (Nat.le_refl _) Hm);
      rewrite Hloop; reflexivity.
  - unfold entry_mode in Hmode. simpl in Hmode.
    rewrite (Hf eq_refl Hw) in Hmode. discriminate.
Qed.

Lemma enter_bound_irrelevant_after_success_witness :
  3 <= 10 /\
  entry_mode (@enter generic 3 (fresh (always _XBEGIN_STARTED) Free)) =
  Transactional /\
  trace (@enter generic 10 (fresh (always _XBEGIN_STARTED) Free)) =
  [EvXBegin _XBEGIN_STARTED; EvQuery false].
Proof.
  split; [lia | ]. split; [reflexivity | ].
  rewrite (@enter_bound_irrelevant_after_success generic 3 10
             (fresh (always _XBEGIN_STARTED) Free) eq_refl ltac:(lia) eq_refl).
  reflexivity.
Defined.

(** X10: contention handoff.  The transaction starts, the lock query
    answers "held": [enter] aborts with 0xFF, waits for the lock by
    taking and releasing it, and, when a retry is left and its
    transaction starts, finds the lock free and returns inside that
    transaction, holding no lock. *)
Theorem contention_handoff {LT : LockType} (nretries : Z) (w : world) :
  1 <= nretries ->
  hw w (nbegin w) = _XBEGIN_STARTED ->
  hw w (S (nbegin w)) = _XBEGIN_STARTED ->
  is_held (fallback_ w) = true ->
  is_held Free = false ->
  enter nretries w =
  mkWorld (hw w) (S (S (nbegin w))) true Free
          (trace w ++ [EvXBegin _XBEGIN_STARTED; EvQuery true; EvXAbort 0xFF;
                       EvLock; EvUnlock;
                       EvXBegin _XBEGIN_STARTED; EvQuery false]).
Proof.
  intros Hn Hs0 Hs1 Hheld Hfree. unfold enter.
  assert (H0 : 0 <= nretries) by lia.
  assert (H1 : 0 + 1 <= nretries) by lia.
  rewrite (enter_from_continue _ H0 (attempt_body_started_held w Hs0 Hheld)).
  match goal with |- enter_from _ _ ?w1 = _ =>
    rewrite (enter_from_return _ H1
               (attempt_body_started_free w1 Hs1 Hfree)) end.
  simpl. now rewrite <- app_assoc.
Qed.

Lemma contention_handoff_witness :
  1 <= 3 /\
  @is_held probing Other = true /\
  @is_held probing Free = false /\
  @enter probing 3 (fresh (always _XBEGIN_STARTED) Other) =
  mkWorld (always _XBEGIN_STARTED) 2 true Free
          [EvXBegin _XBEGIN_STARTED; EvQuery true; EvXAbort 0xFF;
           EvLock; EvUnlock; EvXBegin _XBEGIN_STARTED; EvQuery false].
Proof.
  split; [lia | ]. split; [reflexivity | ]. split; [reflexivity | ].
  exact (@contention_handoff probing 3 (fresh (always _XBEGIN_STARTED) Other)
           ltac:(lia) eq_refl eq_refl eq_refl eq_refl).
Defined.

(** ** The primary template does not look at the lock *)

Lemma generic_body_blind (w w' : world) :
  same_except_lock w w' ->
  fst (@attempt_body generic w) = fst (@attempt_body generic w') /\
  same_except_lock (snd (@attempt_body generic w))
                   (snd (@attempt_body generic w')).
Proof.
  intros (Hh & Hn & Ha & Ht).
  destruct w as [h n a f t], w' as [h' n' a' f' t']. simpl in *. subst.
  unfold attempt_body, _xbegin, isFallbackLocked, log, _xabort, aborted,
    lockFallback, unlockFallback, same_except_lock. simpl.
  destruct (h' n' =? _XBEGIN_STARTED); simpl; auto.
  destruct (is_contention (h' n')); simpl; auto.
  destruct (negb (retry_hint (h' n'))); simpl; auto.
Qed.

Lemma generic_loop_blind (k : nat) :
  forall nretries attempt w w',
    (Z.to_nat (nretries + 1 - attempt) <= k)%nat ->
    same_except_lock w w' ->
    fst (@enter_loop generic nretries attempt w) =
    fst (@enter_loop generic nretries attempt w') /\
    same_except_lock (snd (@enter_loop generic nretries attempt w))
                     (snd (@enter_loop generic nretries attempt w')).
Proof.
  induction k as [ | k IH]; intros nretries attempt w w' Hk Hsame;
    rewrite (enter_loop_step nretries attempt w),
            (enter_loop_step nretries attempt w');
    destruct (attempt <=? nretries) eqn:Hle; auto;
    apply Z.leb_le in Hle; [lia | ].
  destruct (generic_body_blind Hsame) as (Hc & Hs).
  destruct (@attempt_body generic w) as [c w1],
           (@attempt_body generic w') as [c' w1'].
  simpl in Hc, Hs. subst c'.
  destruct c; simpl; auto. apply IH; auto. lia.
Qed.

(** X11: with the primary template's [isFallbackLocked] the entry does
    not depend on who holds the fallback lock: from two worlds that
    differ only in the lock's holder, [enter] makes the same calls, ends
    in the same mode and leaves worlds that again differ at most in the
    holder.  In particular it returns inside a transaction while another
    thread holds the lock. *)
Theorem generic_entry_ignores_lock (nretries : Z) (w w' : world) :
  same_except_lock w w' ->
  same_except_lock (@enter generic nretries w) (@enter generic nretries w') /\
  entry_mode (@enter generic nretries w) =
  entry_mode (@enter generic nretries w').
Proof.
  intros Hsame. unfold enter, enter_from.
  destruct (generic_loop_blind nretries 0 (Nat.le_refl _) Hsame) as (Hc & Hs).
  destruct (@enter_loop generic nretries 0 w) as [b w1],
           (@enter_loop generic nretries 0 w') as [b' w1'].
  simpl in Hc, Hs. subst b'.
  assert (Hgoal : same_except_lock (if b then w1 else lockFallback w1)
                                   (if b then w1' else lockFallback w1')).
  { destruct b; [exact Hs | ].
    destruct Hs as (? & ? & ? & Ht). unfold same_except_lock. simpl.
    rewrite Ht. auto. }
  destruct b; (split; [exact Hgoal | ]);
    unfold entry_mode; destruct Hgoal as (_ & _ & -> & _); reflexivity.
Qed.

Lemma generic_entry_ignores_lock_witness :
  same_except_lock (fresh (always _XBEGIN_STARTED) Free)
                   (fresh (always _XBEGIN_STARTED) Other) /\
  entry_mode (@enter generic 3 (fresh (always _XBEGIN_STARTED) Other)) =
  Transactional /\
  fallback_ (@enter generic 3 (fresh (always _XBEGIN_STARTED) Other)) = Other.
Proof.
  assert (Hsame : same_except_lock (fresh (always _XBEGIN_STARTED) Free)
                                   (fresh (always _XBEGIN_STARTED) Other)).
  { unfold same_except_lock. simpl. auto. }
  split; [exact Hsame | ].
  destruct (@generic_entry_ignores_lock 3 _ _ Hsame) as (_ & Hm).
  split; [rewrite <- Hm; reflexivity | reflexivity].
Defined.

(** ** What the primary template's query costs *)

(** A lock type whose query reports a lock held by another thread as held
    never lets [enter] return inside a transaction while another thread
    holds the lock. *)
Lemma transactional_entry_sees_lock_free {LT : LockType}
    (nretries : Z) (w : world) :
  is_held Other = true ->
  rtm_active w = false ->
  entry_mode (enter nretries w) = Transactional ->
  fallback_ (enter nretries w) <> Other.
Proof.
  intros Hother Hw Hmode. unfold enter in *.
  destruct (enter_from_effect nretries 0 w Hw)
    as (evs & _ & _ & _ & _ & _ & _ & _ & Hm).
  rewrite Hmode in Hm. destruct Hm as (_ & Hq & _).
  intros E. rewrite E, Hother in Hq. discriminate.
Qed.

(** C5 fails for a lock type that keeps the primary template's
    [isFallbackLocked], after a fallback entry: the callback is run once
    and after the [_xend], but no transaction was there to commit and the
    lock has not been released; the callback runs, and the scope ends,
    with the lock held by the scope's thread. *)
Theorem callbacks_run_with_lock_held :
  let w := fresh (always _XABORT_CAPACITY) Free in
  let s := registerCommitCallback (log_cb 1) (fst (@XScope_ctor generic w)) in
  let w1 := snd (@XScope_ctor generic w) in
  entry_mode w1 = Locked /\
  fallback_ w1 = Self /\
  rtm_active w1 = false /\
  @exit generic s w1 = log_cb 1 (@terminate generic w1) /\
  fallback_ (@terminate generic w1) = Self /\
  count is_unlock (trace (@terminate generic w1)) = 0%nat /\
  trace (@exit generic s w1) =
  [EvXBegin _XABORT_CAPACITY; EvLock; EvQuery false; EvXEnd; EvCallback 1] /\
  fallback_ (@exit generic s w1) = Self.
Proof. vm_compute. conjs; reflexivity. Qed.

(** C6 fails for a lock type that keeps the primary template's
    [isFallbackLocked]: while another thread holds the fallback lock, and
    so is inside the critical section outside any transaction, [enter]
    starts a transaction, is told "not held" and returns to its caller to
    run the body, never having looked at the lock. *)
Theorem transactional_entry_beside_lock_holder :
  let w := fresh (always _XBEGIN_STARTED) Other in
  fallback_ w = Other /\
  entry_mode (@enter generic 3 w) = Transactional /\
  fallback_ (@enter generic 3 w) = Other /\
  trace (@enter generic 3 w) = [EvXBegin _XBEGIN_STARTED; EvQuery false] /\
  count is_lock (trace (@enter generic 3 w)) = 0%nat.
Proof. vm_compute. conjs; reflexivity. Qed.
